(** * nature-remo-exporter: cmd/root.go

    A shallow embedding of the metric state ([Metrics], [NewMetrics],
    [Metrics.Set]) and of the refresh goroutine started by [rootCmd.RunE]. *)

From stdpp Require Import base gmap strings list fin_maps.
From Stdlib Require Import ZArith.

Open Scope string_scope.

(** ** Devices, as decoded by the natureremo client *)

(** [natureremo.SensorType]: the JSON keys of [newest_events]. *)
Inductive SensorType := SensorTypeTemperature | SensorTypeHumidity
                      | SensorTypeIllumination | SensorTypeMovement.

Definition sensor_type_code (k : SensorType) : string :=
  match k with
  | SensorTypeTemperature => "te"
  | SensorTypeHumidity => "hu"
  | SensorTypeIllumination => "il"
  | SensorTypeMovement => "mo"
  end.

(** [natureremo.SensorValue]. The float64 [Value] is carried as a [Z]:
    [Set] only copies it into a gauge and does no arithmetic on it. The
    timestamp [CreatedAt] is seconds since the epoch. *)
Record SensorValue := { Value : Z; CreatedAt : Z }.

(** The zero value of the Go struct, what a missing map key yields. *)
Definition SensorValue_zero : SensorValue := {| Value := 0; CreatedAt := 0 |}.

(** The fields of [natureremo.Device] that the exporter reads. *)
Record Device := {
  ID : string;
  Name : string;
  FirmwareVersion : string;
  MacAddress : string;
  SerialNumber : string;
  NewestEvents : gmap string SensorValue
}.

(** Go's [device.NewestEvents[k]]: index a map, zero value when absent. *)
Definition newest_event (d : Device) (k : SensorType) : SensorValue :=
  default SensorValue_zero (NewestEvents d !! sensor_type_code k).

(** ** Prometheus gauge vectors *)

(** [prometheus.GaugeVec]: a descriptor (fully qualified name, help text,
    variable label names) and the gauges created so far, keyed by the label
    values in the order of the label names. *)
Record GaugeVec := {
  gv_fqname : string;
  gv_help : string;
  gv_labels : list string;
  gv_values : gmap (list string) Z
}.

(** [prometheus.BuildFQName] for a non-empty namespace and name. *)
Definition BuildFQName (namespace name : string) : string :=
  namespace ++ "_" ++ name.

(** [prometheus.NewGaugeVec]: no gauge exists yet. *)
Definition NewGaugeVec (namespace name help : string) (labels : list string) : GaugeVec :=
  {| gv_fqname := BuildFQName namespace name; gv_help := help;
     gv_labels := labels; gv_values := ∅ |}.

(** The label-value tuple that [With] computes from a [prometheus.Labels]
    map: the map must have exactly as many entries as there are label names
    and contain every name; otherwise the library reports an error, which
    [With] turns into a panic ([None]). *)
Definition label_values (names : list string) (labels : gmap string string)
  : option (list string) :=
  if decide (length names = size labels) then mapM (λ n, labels !! n) names
  else None.

(** [gv.With(labels).Set(v)]: get or create the gauge, then store [v]. *)
Definition with_set (gv : GaugeVec) (labels : gmap string string) (v : Z)
  : option GaugeVec :=
  key ← label_values (gv_labels gv) labels;
  Some {| gv_fqname := gv_fqname gv; gv_help := gv_help gv;
          gv_labels := gv_labels gv; gv_values := <[key := v]> (gv_values gv) |}.

(** The current value of the gauge of [gv] for [labels], if it exists. *)
Definition gauge_at (gv : GaugeVec) (labels : gmap string string) : option Z :=
  key ← label_values (gv_labels gv) labels; gv_values gv !! key.

(** ** [Metrics] and [NewMetrics] *)

Record Metrics := {
  Temperature : GaugeVec;
  Humidity : GaugeVec;
  Illumination : GaugeVec;
  Movement : GaugeVec
}.

Definition deviceLabels : list string :=
  ["id"; "name"; "firmware_version"; "mac_address"; "serial_number"].

Definition NewMetrics : Metrics :=
  let namespace := "nature_remo" in
  {| Temperature := NewGaugeVec namespace "temperature" "current temperature" deviceLabels;
     Humidity := NewGaugeVec namespace "humidity" "current humidity" deviceLabels;
     Illumination := NewGaugeVec namespace "illumination" "current illumination" deviceLabels;
     Movement := NewGaugeVec namespace "movement" "current movement" deviceLabels |}.

(** The gauge vector [Set] writes for each sensor kind. *)
Definition gauge_of (k : SensorType) (m : Metrics) : GaugeVec :=
  match k with
  | SensorTypeTemperature => Temperature m
  | SensorTypeHumidity => Humidity m
  | SensorTypeIllumination => Illumination m
  | SensorTypeMovement => Movement m
  end.

(** ** [Metrics.Set] *)

(** The [prometheus.Labels] literal built for one device. *)
Definition device_labels (d : Device) : gmap string string :=
  <["id" := ID d]> (<["name" := Name d]> (<["firmware_version" := FirmwareVersion d]>
    (<["mac_address" := MacAddress d]> (<["serial_number" := SerialNumber d]> ∅)))).

(** The label-value tuple under which the device's gauges are stored. *)
Definition device_key (d : Device) : list string :=
  [ID d; Name d; FirmwareVersion d; MacAddress d; SerialNumber d].

(** Go's [error]: [None] is [nil]. *)
Definition error := option string.

(** One iteration of the loop body of [Set]. *)
Definition set_device (m : Metrics) (d : Device) : option Metrics :=
  let labels := device_labels d in
  t ← with_set (Temperature m) labels (Value (newest_event d SensorTypeTemperature));
  h ← with_set (Humidity m) labels (Value (newest_event d SensorTypeHumidity));
  i ← with_set (Illumination m) labels (Value (newest_event d SensorTypeIllumination));
  mv ← with_set (Movement m) labels (Value (newest_event d SensorTypeMovement));
  Some {| Temperature := t; Humidity := h; Illumination := i; Movement := mv |}.

(** [for _, device := range devices { ... }]; [None] is a panic. *)
Fixpoint set_devices (m : Metrics) (devices : list Device) : option Metrics :=
  match devices with
  | [] => Some m
  | d :: rest => m' ← set_device m d; set_devices m' rest
  end.

(** [func (m *Metrics) Set(devices []*natureremo.Device) error]: the new
    state of [m] and the returned error. *)
Definition Metrics_Set (m : Metrics) (devices : list Device) : option (Metrics * error) :=
  m' ← set_devices m devices; Some (m', None).

(** The metric state after a sequence of [Set] calls, one per cycle. *)
Fixpoint run (m : Metrics) (cycles : list (list Device)) : option Metrics :=
  match cycles with
  | [] => Some m
  | ds :: rest => r ← Metrics_Set m ds; run r.1 rest
  end.

(** ** The series the registry exposes *)

(** [reg.MustRegister(metrics.Temperature, metrics.Humidity,
    metrics.Illumination, metrics.Movement)]: the exporter's own series, by
    fully qualified name and label names (the Go and process collectors
    registered alongside are not device series). *)
Definition registered_vecs (m : Metrics) : list GaugeVec :=
  [Temperature m; Humidity m; Illumination m; Movement m].

Definition registered (m : Metrics) : list (string * list string) :=
  map (λ gv, (gv_fqname gv, gv_labels gv)) (registered_vecs m).

(** The value a scrape shows for series [name] with labels [labels]. *)
Definition series_value (m : Metrics) (name : string) (labels : gmap string string)
  : option Z :=
  p ← list_find (λ gv, gv_fqname gv = name) (registered_vecs m);
  gauge_at p.2 labels.

(** The series a scrape shows as [nature_remo_movement_counter] for a device. *)
Definition movement_counter (m : Metrics) (d : Device) : option Z :=
  series_value m "nature_remo_movement_counter" (device_labels d).

(** ** The refresh goroutine of [rootCmd.RunE] *)

(** The [update] closure: fetch the devices of cycle [n] (the outcome of
    [client.DeviceService.GetAll], [None] for an API error) and hand them to
    [Set]. [None] as a result is a panic inside [Set]. *)
Definition update (m : Metrics) (fetched : option (list Device)) : option (Metrics * error) :=
  match fetched with
  | None => Some (m, Some "failed to get all devices from Nature Remo API")
  | Some devices =>
      r ← Metrics_Set m devices;
      match r.2 with
      | Some _ => Some (r.1, Some "failed to set metrics")
      | None => Some (r.1, None)
      end
  end.

(** What the goroutine does that can be observed: the [update] calls (by
    cycle number), the log lines, and the life of the ticker. [EWait] is
    the goroutine blocking in its [select]. *)
Inductive event :=
  | EUpdate (n : nat)
  | ELogError (msg : string)
  | ELogInfo (msg : string)
  | ELogDebug (msg : string)
  | ENewTicker
  | EWait
  | ETickerStop.

(** Which case of the [select] fires at each wait. *)
Inductive sel := SelDone | SelTick.

(** [Waiting]: still blocked in the [select] when the schedule runs out. *)
Inductive status := Waiting | Returned | Panicked.

(** The [for { select { ... } }] loop, from cycle [n] on. *)
Fixpoint loop (fetch : nat → option (list Device)) (n : nat) (m : Metrics)
    (sels : list sel) : list event * Metrics * status :=
  match sels with
  | [] => ([EWait], m, Waiting)
  | SelDone :: _ => ([EWait; ELogInfo "shutting down"], m, Returned)
  | SelTick :: rest =>
      match update m (fetch n) with
      | None => ([EWait; EUpdate n], m, Panicked)
      | Some (m', Some e) => ([EWait; EUpdate n; ELogError e], m', Returned)
      | Some (m', None) =>
          let '(evs, m'', st) := loop fetch (S n) m' rest in
          (EWait :: EUpdate n :: ELogDebug "metrics updated" :: evs, m'', st)
      end
  end.

(** The deferred [ticker.Stop()]: it runs when the goroutine returns or a
    panic unwinds it, not while it is still blocked. *)
Definition deferred_stop (st : status) : list event :=
  match st with Waiting => [] | _ => [ETickerStop] end.

(** The goroutine: cycle 0, then [ticker := time.NewTicker(interval)] with
    [defer ticker.Stop()], then the loop. [interval] is the [--interval]
    flag as a [time.Duration] in nanoseconds; [time.NewTicker] panics on a
    non-positive duration, before the [defer] is registered. *)
Definition goroutine (interval : Z) (fetch : nat → option (list Device)) (m : Metrics)
    (sels : list sel) : list event * Metrics * status :=
  match update m (fetch 0) with
  | None => ([EUpdate 0], m, Panicked)
  | Some (m1, err) =>
      let log0 := match err with Some e => [ELogError e] | None => [] end in
      if decide (interval ≤ 0)%Z then (EUpdate 0 :: log0, m1, Panicked)
      else
        let '(evs, m2, st) := loop fetch 1 m1 sels in
        (EUpdate 0 :: log0 ++ ENewTicker :: evs ++ deferred_stop st, m2, st)
  end.

(** ** Reading a trace *)

Definition is_update (e : event) : bool :=
  match e with EUpdate _ => true | _ => false end.

(** The number of [update] calls in a trace. *)
Definition updates (evs : list event) : nat :=
  length (filter (λ e, is_update e = true) evs).

(** The device lists [GetAll] returned, cycle by cycle, for the cycles
    [n, n+1, ..., n+k-1], failed fetches left out. *)
Definition fetched (fetch : nat → option (list Device)) (n k : nat) : list (list Device) :=
  omap fetch (seq n k).

(** ** Sample inputs *)

Definition sample_device (events : gmap string SensorValue) : Device :=
  {| ID := "dev-1"; Name := "Living room"; FirmwareVersion := "Remo/1.0.62";
     MacAddress := "aa:bb:cc:dd:ee:ff"; SerialNumber := "1W000000000001";
     NewestEvents := events |}.

(** A reading of 25 degrees, and a snapshot of the same device without any
    temperature reading. *)
Definition dev_te25 : Device :=
  sample_device (<["te" := {| Value := 25; CreatedAt := 1000 |}]> ∅).
Definition dev_no_te : Device :=
  sample_device (<["hu" := {| Value := 40; CreatedAt := 1000 |}]> ∅).
Definition dev_te30 : Device :=
  sample_device (<["te" := {| Value := 30; CreatedAt := 1010 |}]> ∅).

(** The movement scenario: event at T0 = 1000 (value 0), again at T0, then
    at T1 = 2000 (value 1). *)
Definition dev_mo (t v : Z) : Device :=
  sample_device (<["mo" := {| Value := v; CreatedAt := t |}]> ∅).

(** A second device, with its own identity. *)
Definition dev_bedroom : Device :=
  {| ID := "dev-2"; Name := "Bedroom"; FirmwareVersion := "Remo-mini/1.0.0";
     MacAddress := "11:22:33:44:55:66"; SerialNumber := "2W000000000002";
     NewestEvents := <["te" := {| Value := 21; CreatedAt := 1000 |}]> ∅ |}.

(** [GetAll] fails on cycle 1 and returns no devices otherwise. *)
Definition fetch_fail1 (n : nat) : option (list Device) :=
  if Nat.eqb n 1 then None else Some [].

(** [GetAll] fails on cycle 1 and returns [dev_te25] otherwise. *)
Definition fetch_te25_fail1 (n : nat) : option (list Device) :=
  if Nat.eqb n 1 then None else Some [dev_te25].

(** [GetAll] fails on cycle 2 and returns no devices otherwise. *)
Definition fetch_fail2 (n : nat) : option (list Device) :=
  if Nat.eqb n 2 then None else Some [].

(** The metric state after one cycle that saw only [dev_bedroom]. *)
Definition metrics_bedroom : Metrics := default NewMetrics (run NewMetrics [[dev_bedroom]]).

(** ** Facts about [Set] *)

(** Every gauge vector carries the label names of [NewMetrics]. *)
Definition labels_wf (m : Metrics) : Prop :=
  ∀ k, gv_labels (gauge_of k m) = deviceLabels.

(** The reading of kind [k] of the last device in [ds] stored under [key]. *)
Fixpoint last_value (k : SensorType) (key : list string) (ds : list Device) : option Z :=
  match ds with
  | [] => None
  | d :: rest =>
      match last_value k key rest with
      | Some v => Some v
      | None => if decide (device_key d = key) then Some (Value (newest_event d k)) else None
      end
  end.

Lemma label_values_device d :
  label_values deviceLabels (device_labels d) = Some (device_key d).
Proof. reflexivity. Qed.

Lemma gauge_at_device gv d :
  gv_labels gv = deviceLabels →
  gauge_at gv (device_labels d) = gv_values gv !! device_key d.
Proof. intros H. unfold gauge_at. rewrite H, label_values_device. reflexivity. Qed.

Lemma NewMetrics_wf : labels_wf NewMetrics.
Proof. intros []; reflexivity. Qed.

Lemma set_device_spec m d :
  labels_wf m →
  ∃ m', set_device m d = Some m' ∧ labels_wf m' ∧
    (∀ k, gv_fqname (gauge_of k m') = gv_fqname (gauge_of k m)) ∧
    (∀ k, gv_values (gauge_of k m') =
          <[device_key d := Value (newest_event d k)]> (gv_values (gauge_of k m))).
Proof.
  intros Hwf. unfold set_device, with_set.
  pose proof (Hwf SensorTypeTemperature) as Ht. pose proof (Hwf SensorTypeHumidity) as Hh.
  pose proof (Hwf SensorTypeIllumination) as Hi. pose proof (Hwf SensorTypeMovement) as Hm.
  simpl in Ht, Hh, Hi, Hm. rewrite Ht, Hh, Hi, Hm, label_values_device. simpl.
  eexists. split; [reflexivity|].
  split; [intros []; reflexivity|]. split; intros []; reflexivity.
Qed.

Lemma set_devices_spec m ds :
  labels_wf m →
  ∃ m', set_devices m ds = Some m' ∧ labels_wf m' ∧
    (∀ k, gv_fqname (gauge_of k m') = gv_fqname (gauge_of k m)) ∧
    (∀ k key, gv_values (gauge_of k m') !! key =
      match last_value k key ds with
      | Some v => Some v
      | None => gv_values (gauge_of k m) !! key
      end).
Proof.
  revert m. induction ds as [|d ds IH]; intros m Hwf; simpl.
  - exists m. auto.
  - destruct (set_device_spec m d Hwf) as (m1 & -> & Hwf1 & Hn1 & Hv1). simpl.
    destruct (IH m1 Hwf1) as (m2 & -> & Hwf2 & Hn2 & Hv2).
    exists m2. split; [reflexivity|]. split; [assumption|].
    split; [intros k; rewrite Hn2, Hn1; reflexivity|].
    intros k key. rewrite Hv2. destruct (last_value k key ds); [reflexivity|].
    rewrite Hv1. case_decide as Heq.
    + subst. apply lookup_insert_eq.
    + apply lookup_insert_ne. congruence.
Qed.

Lemma run_spec m cycles m' :
  labels_wf m → run m cycles = Some m' →
  labels_wf m' ∧ ∀ k, gv_fqname (gauge_of k m') = gv_fqname (gauge_of k m).
Proof.
  revert m. induction cycles as [|ds cycles IH]; intros m Hwf Hrun; simpl in Hrun.
  - injection Hrun as <-. auto.
  - unfold Metrics_Set in Hrun.
    destruct (set_devices_spec m ds Hwf) as (m1 & Hs & Hwf1 & Hn1 & _).
    rewrite Hs in Hrun. simpl in Hrun.
    destruct (IH m1 Hwf1 Hrun) as [Hwf2 Hn2]. split; [assumption|].
    intros k. rewrite Hn2, Hn1. reflexivity.
Qed.

Lemma run_total m cycles :
  labels_wf m → ∃ m', run m cycles = Some m'.
Proof.
  revert m. induction cycles as [|ds cycles IH]; intros m Hwf; simpl.
  - eauto.
  - unfold Metrics_Set.
    destruct (set_devices_spec m ds Hwf) as (m1 & -> & Hwf1 & _). simpl. auto.
Qed.

Lemma last_value_app k key l1 l2 :
  last_value k key (l1 ++ l2) =
  match last_value k key l2 with Some v => Some v | None => last_value k key l1 end.
Proof.
  induction l1 as [|d l1 IH]; simpl.
  - destruct (last_value k key l2); reflexivity.
  - rewrite IH. destruct (last_value k key l2); reflexivity.
Qed.

Lemma last_value_none k key ds :
  Forall (λ d', device_key d' ≠ key) ds → last_value k key ds = None.
Proof.
  induction 1 as [|d ds Hd _ IH]; simpl; [reflexivity|].
  rewrite IH. case_decide; [contradiction|reflexivity].
Qed.

Lemma last_value_last k d pre post :
  Forall (λ d', device_key d' ≠ device_key d) post →
  last_value k (device_key d) (pre ++ d :: post) = Some (Value (newest_event d k)).
Proof.
  intros Hpost. rewrite last_value_app. simpl.
  rewrite (last_value_none k _ post Hpost). case_decide; [reflexivity|congruence].
Qed.

Lemma Set_last_snapshot m pre d post k :
  labels_wf m →
  Forall (λ d', device_key d' ≠ device_key d) post →
  ∃ m', Metrics_Set m (pre ++ d :: post) = Some (m', None) ∧
    gauge_at (gauge_of k m') (device_labels d) = Some (Value (newest_event d k)).
Proof.
  intros Hwf Hpost. unfold Metrics_Set.
  destruct (set_devices_spec m (pre ++ d :: post) Hwf) as (m' & -> & Hwf' & _ & Hv).
  exists m'. split; [reflexivity|].
  rewrite gauge_at_device by apply Hwf'. rewrite Hv, last_value_last by assumption.
  reflexivity.
Qed.

(** ** Claims about [Metrics.Set] *)

(** C1 (as stated, refuted): a snapshot without a temperature reading does
    not leave the temperature gauge alone. After a cycle that read 25, a
    cycle for the same device with no "te" entry sets the gauge to 0. *)
Lemma C1_counterexample :
  ∃ m1 m2,
    run NewMetrics [[dev_te25]] = Some m1 ∧
    Metrics_Set m1 [dev_no_te] = Some (m2, None) ∧
    NewestEvents dev_no_te !! sensor_type_code SensorTypeTemperature = None ∧
    gauge_at (Temperature m1) (device_labels dev_no_te) = Some 25%Z ∧
    gauge_at (Temperature m2) (device_labels dev_no_te) = Some 0%Z.
Proof.
  eexists; eexists. split; [reflexivity|]. split; [reflexivity|].
  vm_compute. repeat split.
Qed.

(** C1 (amended): when a device's snapshot has no reading of kind [k],
    [Set] writes the zero value of the missing map entry, so after [Set]
    the gauge of kind [k] for that device's labels reads 0, unless a later
    snapshot in the list has the same labels. *)
Lemma C1_absent_sensor_writes_zero m pre d post k :
  labels_wf m →
  NewestEvents d !! sensor_type_code k = None →
  Forall (λ d', device_key d' ≠ device_key d) post →
  ∃ m', Metrics_Set m (pre ++ d :: post) = Some (m', None) ∧
    gauge_at (gauge_of k m') (device_labels d) = Some 0%Z.
Proof.
  intros Hwf Habs Hpost.
  destruct (Set_last_snapshot m pre d post k Hwf Hpost) as (m' & HS & Hg).
  exists m'. split; [assumption|]. rewrite Hg. unfold newest_event. rewrite Habs.
  reflexivity.
Qed.

Lemma C1_absent_sensor_writes_zero_witness :
  ∃ m', Metrics_Set NewMetrics ([dev_te25] ++ dev_no_te :: []) = Some (m', None) ∧
    gauge_at (gauge_of SensorTypeTemperature m') (device_labels dev_no_te) = Some 0%Z.
Proof.
  apply (C1_absent_sensor_writes_zero NewMetrics [dev_te25] dev_no_te [] SensorTypeTemperature).
  - intros []; reflexivity.
  - reflexivity.
  - constructor.
Defined.

(** C8 (as stated, refuted): two snapshots in one list with the same
    identity. The first one's temperature (25) is overwritten by the
    second one's (30). *)
Lemma C8_counterexample :
  ∃ m,
    Metrics_Set NewMetrics [dev_te25; dev_te30] = Some (m, None) ∧
    NewestEvents dev_te25 !! sensor_type_code SensorTypeTemperature =
      Some {| Value := 25; CreatedAt := 1000 |} ∧
    gauge_at (Temperature m) (device_labels dev_te25) = Some 30%Z.
Proof.
  eexists. split; [reflexivity|]. vm_compute. split; reflexivity.
Qed.

(** C8 (amended): when a device's snapshot has a reading [sv] of kind [k]
    and no later snapshot in the list carries the same labels, after [Set]
    the gauge of kind [k] under that device's labels equals [Value sv]. *)
Lemma C8_present_sensor_sets_gauge m pre d post k sv :
  labels_wf m →
  NewestEvents d !! sensor_type_code k = Some sv →
  Forall (λ d', device_key d' ≠ device_key d) post →
  ∃ m', Metrics_Set m (pre ++ d :: post) = Some (m', None) ∧
    gauge_at (gauge_of k m') (device_labels d) = Some (Value sv).
Proof.
  intros Hwf Hsv Hpost.
  destruct (Set_last_snapshot m pre d post k Hwf Hpost) as (m' & HS & Hg).
  exists m'. split; [assumption|]. rewrite Hg. unfold newest_event. rewrite Hsv.
  reflexivity.
Qed.

Lemma C8_present_sensor_sets_gauge_witness :
  ∃ m', Metrics_Set NewMetrics ([dev_te25] ++ dev_te30 :: []) = Some (m', None) ∧
    gauge_at (gauge_of SensorTypeTemperature m') (device_labels dev_te30) = Some 30%Z.
Proof.
  apply (C8_present_sensor_sets_gauge NewMetrics [dev_te25] dev_te30 []
           SensorTypeTemperature {| Value := 30; CreatedAt := 1010 |}).
  - intros []; reflexivity.
  - reflexivity.
  - constructor.
Defined.

(** C9: [Set] never fails: on every device list it returns (no panic in
    [With], whose label names always match) and its error is [nil]. *)
Theorem C9_Set_returns_nil m devices :
  labels_wf m → ∃ m', Metrics_Set m devices = Some (m', None).
Proof.
  intros Hwf. unfold Metrics_Set.
  destruct (set_devices_spec m devices Hwf) as (m' & -> & _). eauto.
Qed.

Lemma C9_Set_returns_nil_witness :
  ∃ m', Metrics_Set NewMetrics [dev_te25; dev_no_te] = Some (m', None).
Proof. apply C9_Set_returns_nil. intros []; reflexivity. Defined.

(** ** Claims about the registered series *)

Lemma run_fqnames cycles m k :
  run NewMetrics cycles = Some m →
  gv_fqname (gauge_of k m) = gv_fqname (gauge_of k NewMetrics).
Proof. intros H. apply (run_spec NewMetrics cycles m NewMetrics_wf H). Qed.

(** C2: no series [nature_remo_movement_counter] exists: after any
    sequence of [Set] calls the scrape shows no counter value for any
    device. *)
Theorem C2_no_movement_counter cycles d :
  ∃ m, run NewMetrics cycles = Some m ∧ movement_counter m d = None.
Proof.
  destruct (run_total NewMetrics cycles NewMetrics_wf) as [m Hm].
  exists m. split; [assumption|].
  pose proof (run_fqnames cycles m SensorTypeTemperature Hm) as Ht.
  pose proof (run_fqnames cycles m SensorTypeHumidity Hm) as Hh.
  pose proof (run_fqnames cycles m SensorTypeIllumination Hm) as Hi.
  pose proof (run_fqnames cycles m SensorTypeMovement Hm) as Hmv.
  simpl in Ht, Hh, Hi, Hmv.
  unfold movement_counter, series_value, registered_vecs. simpl.
  rewrite Ht, Hh, Hi, Hmv. reflexivity.
Qed.

(** C3: the movement scenario (event at T0, again at T0, then at T1). The
    movement gauge follows the readings, but no counter value exists after
    any of the three cycles, so none is incremented. *)
Theorem C3_movement_scenario :
  ∃ m1 m2 m3,
    run NewMetrics [[dev_mo 1000 0]] = Some m1 ∧
    run NewMetrics [[dev_mo 1000 0]; [dev_mo 1000 0]] = Some m2 ∧
    run NewMetrics [[dev_mo 1000 0]; [dev_mo 1000 0]; [dev_mo 2000 1]] = Some m3 ∧
    movement_counter m1 (dev_mo 1000 0) = None ∧
    movement_counter m2 (dev_mo 1000 0) = None ∧
    movement_counter m3 (dev_mo 2000 1) = None ∧
    gauge_at (Movement m3) (device_labels (dev_mo 2000 1)) = Some 1%Z.
Proof.
  do 3 eexists. split; [reflexivity|]. split; [reflexivity|]. split; [reflexivity|].
  vm_compute. repeat split.
Qed.

(** C7: [NewMetrics] and the registration in [rootCmd.RunE] give four
    gauge series, each with the five label names of [deviceLabels]; there
    is no [nature_remo_movement_counter] series and no [bt_mac_address]
    label. *)
Theorem C7_registered_series :
  registered NewMetrics =
    [("nature_remo_temperature", deviceLabels);
     ("nature_remo_humidity", deviceLabels);
     ("nature_remo_illumination", deviceLabels);
     ("nature_remo_movement", deviceLabels)] ∧
  deviceLabels = ["id"; "name"; "firmware_version"; "mac_address"; "serial_number"] ∧
  ("nature_remo_movement_counter" ∉ (map fst (registered NewMetrics) : list string)) ∧
  ("bt_mac_address" ∉ deviceLabels).
Proof.
  split; [reflexivity|]. split; [reflexivity|]. split; vm_compute; intros H.
  - repeat (apply elem_of_cons in H as [H|H]; [discriminate|]).
    by apply elem_of_nil in H.
  - repeat (apply elem_of_cons in H as [H|H]; [discriminate|]).
    by apply elem_of_nil in H.
Qed.

(** ** Claims about the refresh goroutine *)

Lemma loop_cancel fetch n m ticks rest evs m' :
  loop fetch n m ticks = (evs, m', Waiting) →
  loop fetch n m (ticks ++ SelDone :: rest)%list = ((evs ++ [ELogInfo "shutting down"])%list, m', Returned).
Proof.
  revert n m evs. induction ticks as [|s ticks IH]; intros n m evs H; simpl in *.
  - injection H as <- <-. reflexivity.
  - destruct s; [discriminate|].
    destruct (update m (fetch n)) as [[m1 [e|]]|]; try discriminate.
    destruct (loop fetch (S n) m1 ticks) as [[evs1 m2] st] eqn:Hl.
    injection H as <- -> ->. rewrite (IH _ _ _ Hl). reflexivity.
Qed.

Lemma loop_after_waiting fetch n m ticks evs m' :
  loop fetch n m ticks = (evs, m', Waiting) →
  ∃ pre, evs = (pre ++ [EWait])%list ∧
    ∀ sels evs2 m2 st2, loop fetch (n + length ticks) m' sels = (evs2, m2, st2) →
      loop fetch n m (ticks ++ sels)%list = ((pre ++ evs2)%list, m2, st2).
Proof.
  revert n m evs. induction ticks as [|s ticks IH]; intros n m evs H; simpl in H.
  - injection H as <- <-. exists []. split; [reflexivity|].
    intros sels evs2 m2 st2 Hl. rewrite Nat.add_0_r in Hl. exact Hl.
  - destruct s; [discriminate|].
    destruct (update m (fetch n)) as [[m1 [e|]]|] eqn:Hu; try discriminate.
    destruct (loop fetch (S n) m1 ticks) as [[evs1 m3] st] eqn:Hl.
    injection H as <- -> ->.
    destruct (IH _ _ _ Hl) as (pre & -> & Hafter).
    exists (EWait :: EUpdate n :: ELogDebug "metrics updated" :: pre). split; [reflexivity|].
    intros sels evs2 m2 st2 Hs. simpl. rewrite Hu.
    change (length (SelTick :: ticks)) with (S (length ticks)) in Hs. rewrite Nat.add_succ_r in Hs. rewrite (Hafter sels evs2 m2 st2 Hs). reflexivity.
Qed.

(** A goroutine blocked after a schedule [ticks] whose next tick fails
    logs the error and returns; the deferred [Stop] is its last event. *)
Lemma goroutine_periodic_error interval fetch m ticks rest evs m1 m2 e :
  goroutine interval fetch m ticks = (evs, m1, Waiting) →
  update m1 (fetch (S (length ticks))) = Some (m2, Some e) →
  goroutine interval fetch m (ticks ++ SelTick :: rest)%list =
    ((evs ++ [EUpdate (S (length ticks)); ELogError e; ETickerStop])%list, m2, Returned).
Proof.
  unfold goroutine. destruct (update m (fetch 0)) as [[m0 err]|]; [|discriminate].
  case_decide; [discriminate|].
  destruct (loop fetch 1 m0 ticks) as [[evs1 m3] st] eqn:Hl.
  destruct st; try discriminate. intros Hg Hu. injection Hg as <- <-.
  destruct (loop_after_waiting fetch 1 m0 ticks evs1 m3 Hl) as (pre & -> & Hafter).
  rewrite (Hafter (SelTick :: rest) [EWait; EUpdate (S (length ticks)); ELogError e] m2 Returned)
    by (simpl; rewrite Hu; reflexivity).
  simpl. rewrite <- !app_assoc. simpl. rewrite <- !app_assoc. reflexivity.
Qed.

(** C4 (as stated, refuted): [GetAll] fails on cycle 1; the goroutine logs
    the error and returns (the deferred [Stop] runs), and the second tick
    never starts cycle 2. *)
Lemma C4_counterexample :
  ∃ m,
    goroutine 30000000000%Z fetch_fail1 NewMetrics [SelTick; SelTick] =
      ([EUpdate 0; ENewTicker; EWait; EUpdate 1;
        ELogError "failed to get all devices from Nature Remo API"; ETickerStop],
       m, Returned).
Proof. eexists. reflexivity. Qed.

(** C4 (amended): whatever ticks went before, when the [update] of a
    periodic cycle reports an error the goroutine logs it and returns,
    with the deferred [ticker.Stop()] as its last event; the rest of the
    schedule is ignored, so no further cycle runs. *)
Theorem C4_periodic_error_returns interval fetch m ticks rest evs m1 m2 e :
  goroutine interval fetch m ticks = (evs, m1, Waiting) →
  update m1 (fetch (S (length ticks))) = Some (m2, Some e) →
  goroutine interval fetch m (ticks ++ SelTick :: rest)%list =
    ((evs ++ [EUpdate (S (length ticks)); ELogError e; ETickerStop])%list, m2, Returned).
Proof. apply goroutine_periodic_error. Qed.

Lemma C4_periodic_error_returns_witness :
  goroutine 30000000000%Z fetch_fail2 NewMetrics ([SelTick] ++ SelTick :: [SelTick])%list =
    (([EUpdate 0; ENewTicker; EWait; EUpdate 1; ELogDebug "metrics updated"; EWait] ++
      [EUpdate 2; ELogError "failed to get all devices from Nature Remo API"; ETickerStop])%list,
     NewMetrics, Returned).
Proof.
  apply (C4_periodic_error_returns 30000000000%Z fetch_fail2 NewMetrics [SelTick] [SelTick]
           [EUpdate 0; ENewTicker; EWait; EUpdate 1; ELogDebug "metrics updated"; EWait]
           NewMetrics NewMetrics "failed to get all devices from Nature Remo API");
    reflexivity.
Defined.

(** C5: whatever the schedule, the first thing the goroutine does is the
    [update] of cycle 0; the ticker is created and the first wait happens
    after it. *)
Theorem C5_cycle0_first interval fetch m sels :
  ∃ rest m' st, goroutine interval fetch m sels = (EUpdate 0 :: rest, m', st).
Proof.
  unfold goroutine. destruct (update m (fetch 0)) as [[m1 err]|]; [|eauto].
  case_decide; [eauto|].
  destruct (loop fetch 1 m1 sels) as [[evs m2] st]. eauto.
Qed.

(** C6: if the goroutine is blocked in its [select] after a schedule
    [ticks] and the next event is the cancellation, it logs "shutting
    down", stops the ticker (deferred) and returns; no [update] is started
    and no error is logged. *)
Theorem C6_cancel_while_waiting interval fetch m ticks rest evs m' :
  goroutine interval fetch m ticks = (evs, m', Waiting) →
  goroutine interval fetch m (ticks ++ SelDone :: rest)%list =
    ((evs ++ [ELogInfo "shutting down"; ETickerStop])%list, m', Returned).
Proof.
  unfold goroutine. destruct (update m (fetch 0)) as [[m1 err]|]; [|discriminate].
  case_decide; [discriminate|].
  destruct (loop fetch 1 m1 ticks) as [[evs1 m2] st] eqn:Hl.
  destruct st; try discriminate. intros Hg. injection Hg as <- <-.
  rewrite (loop_cancel fetch 1 m1 ticks rest evs1 m2 Hl).
  simpl. rewrite !app_comm_cons, <- !app_assoc. reflexivity.
Qed.

Lemma C6_cancel_while_waiting_witness :
  goroutine 30000000000%Z (λ _, Some []) NewMetrics [SelTick] =
    ([EUpdate 0; ENewTicker; EWait; EUpdate 1; ELogDebug "metrics updated"; EWait],
     NewMetrics, Waiting) ∧
  goroutine 30000000000%Z (λ _, Some []) NewMetrics ([SelTick] ++ SelDone :: [SelTick])%list =
    (([EUpdate 0; ENewTicker; EWait; EUpdate 1; ELogDebug "metrics updated"; EWait] ++
      [ELogInfo "shutting down"; ETickerStop])%list, NewMetrics, Returned).
Proof. split; [reflexivity|]. apply C6_cancel_while_waiting. reflexivity. Defined.

(** C10: the two phases treat a failed cycle differently. An error in
    cycle 0 is only logged: with a positive interval the goroutine creates
    the ticker and runs the periodic loop from cycle 1 on, exactly as it
    would have after a successful cycle 0. An error in any periodic cycle,
    after any number of ticks, is logged and the goroutine returns (the
    deferred [Stop] runs) without looking at the rest of the schedule. *)
Theorem C10_cycle_errors_handled_differently :
  (∀ interval fetch m sels m1 e0 evs m' st,
     (0 < interval)%Z →
     update m (fetch 0) = Some (m1, Some e0) →
     loop fetch 1 m1 sels = (evs, m', st) →
     goroutine interval fetch m sels =
       (EUpdate 0 :: ELogError e0 :: ENewTicker :: (evs ++ deferred_stop st)%list, m', st)) ∧
  (∀ interval fetch m ticks rest evs m1 m2 e,
     goroutine interval fetch m ticks = (evs, m1, Waiting) →
     update m1 (fetch (S (length ticks))) = Some (m2, Some e) →
     goroutine interval fetch m (ticks ++ SelTick :: rest)%list =
       ((evs ++ [EUpdate (S (length ticks)); ELogError e; ETickerStop])%list, m2, Returned)).
Proof.
  split.
  - intros interval fetch m sels m1 e0 evs m' st Hpos H0 Hl. unfold goroutine. rewrite H0.
    case_decide; [lia|]. rewrite Hl. reflexivity.
  - intros. eapply goroutine_periodic_error; eassumption.
Qed.

Lemma C10_cycle_errors_handled_differently_witness :
  goroutine 30000000000%Z (λ _, None) NewMetrics [SelDone] =
    ([EUpdate 0; ELogError "failed to get all devices from Nature Remo API"; ENewTicker;
      EWait; ELogInfo "shutting down"; ETickerStop], NewMetrics, Returned) ∧
  goroutine 30000000000%Z fetch_fail2 NewMetrics ([SelTick] ++ SelTick :: [SelTick])%list =
    (([EUpdate 0; ENewTicker; EWait; EUpdate 1; ELogDebug "metrics updated"; EWait] ++
      [EUpdate 2; ELogError "failed to get all devices from Nature Remo API"; ETickerStop])%list,
     NewMetrics, Returned).
Proof.
  split.
  - apply (proj1 C10_cycle_errors_handled_differently 30000000000%Z (λ _, None) NewMetrics
             [SelDone] NewMetrics "failed to get all devices from Nature Remo API"
             [EWait; ELogInfo "shutting down"] NewMetrics Returned); [lia|reflexivity|reflexivity].
  - apply (proj2 C10_cycle_errors_handled_differently 30000000000%Z fetch_fail2 NewMetrics
             [SelTick] [SelTick]
             [EUpdate 0; ENewTicker; EWait; EUpdate 1; ELogDebug "metrics updated"; EWait]
             NewMetrics NewMetrics "failed to get all devices from Nature Remo API");
      reflexivity.
Defined.

(** ** Further properties of [Metrics.Set] *)

Lemma set_devices_desc m ds m' k :
  set_devices m ds = Some m' →
  gv_fqname (gauge_of k m') = gv_fqname (gauge_of k m) ∧
  gv_help (gauge_of k m') = gv_help (gauge_of k m) ∧
  gv_labels (gauge_of k m') = gv_labels (gauge_of k m).
Proof.
  revert m. induction ds as [|d ds IH]; intros m H; simpl in H.
  - injection H as <-. auto.
  - destruct (set_device m d) as [m1|] eqn:Hd; [|discriminate]. simpl in H.
    destruct (IH m1 H) as (-> & -> & ->).
    unfold set_device, with_set in Hd.
    destruct k; simpl;
      repeat match goal with
      | H : (_ ≫= _) = Some _ |- _ => apply bind_Some in H as (? & ? & H)
      | H : Some _ = Some _ |- _ => injection H as <-
      end; simpl; auto.
Qed.

Lemma metrics_eq m1 m2 :
  (∀ k, gv_fqname (gauge_of k m1) = gv_fqname (gauge_of k m2)) →
  (∀ k, gv_help (gauge_of k m1) = gv_help (gauge_of k m2)) →
  (∀ k, gv_labels (gauge_of k m1) = gv_labels (gauge_of k m2)) →
  (∀ k, gv_values (gauge_of k m1) = gv_values (gauge_of k m2)) →
  m1 = m2.
Proof.
  destruct m1 as [[] [] [] []], m2 as [[] [] [] []]; intros Hn Hh Hl Hv.
  pose proof (Hn SensorTypeTemperature); pose proof (Hn SensorTypeHumidity);
  pose proof (Hn SensorTypeIllumination); pose proof (Hn SensorTypeMovement);
  pose proof (Hh SensorTypeTemperature); pose proof (Hh SensorTypeHumidity);
  pose proof (Hh SensorTypeIllumination); pose proof (Hh SensorTypeMovement);
  pose proof (Hl SensorTypeTemperature); pose proof (Hl SensorTypeHumidity);
  pose proof (Hl SensorTypeIllumination); pose proof (Hl SensorTypeMovement);
  pose proof (Hv SensorTypeTemperature); pose proof (Hv SensorTypeHumidity);
  pose proof (Hv SensorTypeIllumination); pose proof (Hv SensorTypeMovement);
  simpl in *; subst; reflexivity.
Qed.

Lemma last_value_is_Some k key ds :
  is_Some (last_value k key ds) ↔ key ∈ map device_key ds.
Proof.
  induction ds as [|d ds IH]; simpl.
  - split; [intros [? H]; discriminate|intros H; by apply elem_of_nil in H].
  - rewrite elem_of_cons. destruct (last_value k key ds) eqn:Hl.
    + split; [|eauto]. intros _. right. apply IH. eauto.
    + case_decide as Heq; split; intros H.
      * left. congruence.
      * eauto.
      * destruct H as [? ?]; discriminate.
      * destruct H as [H|H]; [congruence|]. apply IH in H as [? ?]; discriminate.
Qed.

Lemma last_value_perm k key l1 l2 :
  NoDup (map device_key l1) → l1 ≡ₚ l2 → last_value k key l1 = last_value k key l2.
Proof.
  intros Hnd Hp. revert Hnd. induction Hp as [|d l1 l2 Hp IH|d1 d2 l|l1 l2 l3 Hp1 IH1 Hp2 IH2];
    intros Hnd; simpl.
  - reflexivity.
  - apply NoDup_cons in Hnd as [_ Hnd]. rewrite (IH Hnd). reflexivity.
  - simpl in Hnd. apply NoDup_cons in Hnd as [Hn Hnd].
    rewrite elem_of_cons in Hn.
    destruct (last_value k key l); [reflexivity|].
    repeat case_decide; subst; try reflexivity. exfalso. apply Hn. left. congruence.
  - rewrite (IH1 Hnd). apply IH2.
    rewrite <- Hp1. apply Hnd.
Qed.

(** X1: after [Set], the gauge of kind [k] stored under a label tuple
    holds the reading of the last device in the list with those labels, or
    its previous value (or none) when no device of the list has them. *)
Theorem X_Set_gauge_values m ds k key :
  labels_wf m →
  ∃ m', Metrics_Set m ds = Some (m', None) ∧
    gv_values (gauge_of k m') !! key =
      match last_value k key ds with
      | Some v => Some v
      | None => gv_values (gauge_of k m) !! key
      end.
Proof.
  intros Hwf. unfold Metrics_Set.
  destruct (set_devices_spec m ds Hwf) as (m' & -> & _ & _ & Hv). eauto.
Qed.

Lemma X_Set_gauge_values_witness :
  ∃ m', Metrics_Set NewMetrics [dev_te25; dev_te30] = Some (m', None) ∧
    gv_values (gauge_of SensorTypeTemperature m') !! device_key dev_te25 =
      match last_value SensorTypeTemperature (device_key dev_te25) [dev_te25; dev_te30] with
      | Some v => Some v
      | None => gv_values (gauge_of SensorTypeTemperature NewMetrics) !! device_key dev_te25
      end.
Proof. apply X_Set_gauge_values. intros []; reflexivity. Defined.

(** X2: [Set] never touches the gauges of a device that is not in the
    list: every label tuple outside the list keeps its value in all four
    gauge vectors. *)
Theorem X_Set_frame m ds k key :
  labels_wf m → key ∉ map device_key ds →
  ∃ m', Metrics_Set m ds = Some (m', None) ∧
    gv_values (gauge_of k m') !! key = gv_values (gauge_of k m) !! key.
Proof.
  intros Hwf Hnot. unfold Metrics_Set.
  destruct (set_devices_spec m ds Hwf) as (m' & -> & _ & _ & Hv).
  exists m'. split; [reflexivity|]. rewrite Hv.
  destruct (last_value k key ds) eqn:Hl; [|reflexivity].
  exfalso. apply Hnot, (last_value_is_Some k). rewrite Hl. eauto.
Qed.

Lemma X_Set_frame_witness :
  gv_values (gauge_of SensorTypeTemperature metrics_bedroom) !! device_key dev_bedroom =
    Some 21%Z ∧
  ∃ m', Metrics_Set metrics_bedroom [dev_te25] = Some (m', None) ∧
    gv_values (gauge_of SensorTypeTemperature m') !! device_key dev_bedroom =
      gv_values (gauge_of SensorTypeTemperature metrics_bedroom) !! device_key dev_bedroom.
Proof.
  split; [vm_compute; reflexivity|].
  apply X_Set_frame.
  - intros []; vm_compute; reflexivity.
  - vm_compute. intros H.
    apply elem_of_cons in H as [H|H]; [discriminate|]. by apply elem_of_nil in H.
Defined.

(** X3: [Set] never deletes a gauge and creates one in every gauge vector
    for each device it is given: the label tuples present afterwards are
    those present before plus those of the devices in the list. *)
Theorem X_Set_domain m ds k :
  labels_wf m →
  ∃ m', Metrics_Set m ds = Some (m', None) ∧
    dom (gv_values (gauge_of k m')) = dom (gv_values (gauge_of k m)) ∪ list_to_set (map device_key ds).
Proof.
  intros Hwf. unfold Metrics_Set.
  destruct (set_devices_spec m ds Hwf) as (m' & -> & _ & _ & Hv).
  exists m'. split; [reflexivity|]. apply set_eq. intros key.
  rewrite elem_of_union, elem_of_list_to_set, !elem_of_dom, Hv, <- (last_value_is_Some k).
  destruct (last_value k key ds); split; intros H; eauto.
  - destruct H as [H|H]; [exact H|destruct H; discriminate].
Qed.

Lemma X_Set_domain_witness :
  ∃ m', Metrics_Set NewMetrics [dev_te25] = Some (m', None) ∧
    dom (gv_values (gauge_of SensorTypeMovement m')) =
      dom (gv_values (gauge_of SensorTypeMovement NewMetrics)) ∪
      list_to_set (map device_key [dev_te25]).
Proof. apply X_Set_domain. intros []; reflexivity. Defined.

Lemma set_devices_app m l1 l2 :
  set_devices m (l1 ++ l2) = (m1 ← set_devices m l1; set_devices m1 l2).
Proof.
  revert m. induction l1 as [|d l1 IH]; intros m; simpl; [reflexivity|].
  destruct (set_device m d); simpl; [apply IH|reflexivity].
Qed.

(** X4: two consecutive [Set] calls have the same effect as one [Set] on
    the concatenated device list. *)
Theorem X_Set_two_cycles_concat m l1 l2 :
  run m [l1; l2] = fst <$> Metrics_Set m (l1 ++ l2).
Proof.
  unfold run, Metrics_Set. rewrite set_devices_app.
  destruct (set_devices m l1) as [m1|]; simpl; [|reflexivity].
  destruct (set_devices m1 l2); reflexivity.
Qed.

(** X5: [Set] is idempotent: feeding the same device list again changes
    nothing. *)
Theorem X_Set_idempotent m ds m1 :
  labels_wf m → Metrics_Set m ds = Some (m1, None) → Metrics_Set m1 ds = Some (m1, None).
Proof.
  intros Hwf H. unfold Metrics_Set in *.
  destruct (set_devices_spec m ds Hwf) as (m1' & Hs & Hwf1 & _ & Hv1).
  rewrite Hs in H. simpl in H. injection H as <-.
  destruct (set_devices_spec m1' ds Hwf1) as (m2 & Hs2 & _ & _ & Hv2).
  rewrite Hs2. simpl. do 2 f_equal.
  apply metrics_eq; intros k.
  - apply (set_devices_desc m1' ds m2 k Hs2).
  - apply (set_devices_desc m1' ds m2 k Hs2).
  - apply (set_devices_desc m1' ds m2 k Hs2).
  - apply map_eq. intros key. rewrite Hv2, Hv1.
    destruct (last_value k key ds); reflexivity.
Qed.

Lemma X_Set_idempotent_witness :
  ∃ m1, Metrics_Set NewMetrics [dev_te25; dev_no_te] = Some (m1, None) ∧
    Metrics_Set m1 [dev_te25; dev_no_te] = Some (m1, None).
Proof.
  eexists. split; [reflexivity|].
  apply (X_Set_idempotent NewMetrics); [intros []; reflexivity|reflexivity].
Defined.

(** X6: when the devices of the list have pairwise distinct labels, the
    order of the list does not matter: any permutation gives the same
    metric state. *)
Theorem X_Set_order_irrelevant m l1 l2 :
  labels_wf m → NoDup (map device_key l1) → l1 ≡ₚ l2 →
  Metrics_Set m l1 = Metrics_Set m l2.
Proof.
  intros Hwf Hnd Hp. unfold Metrics_Set.
  destruct (set_devices_spec m l1 Hwf) as (m1 & Hs1 & _ & _ & Hv1).
  destruct (set_devices_spec m l2 Hwf) as (m2 & Hs2 & _ & _ & Hv2).
  rewrite Hs1, Hs2. simpl. do 2 f_equal.
  apply metrics_eq; intros k.
  - rewrite (proj1 (set_devices_desc m l1 m1 k Hs1)), (proj1 (set_devices_desc m l2 m2 k Hs2)).
    reflexivity.
  - rewrite (proj1 (proj2 (set_devices_desc m l1 m1 k Hs1))),
            (proj1 (proj2 (set_devices_desc m l2 m2 k Hs2))). reflexivity.
  - rewrite (proj2 (proj2 (set_devices_desc m l1 m1 k Hs1))),
            (proj2 (proj2 (set_devices_desc m l2 m2 k Hs2))). reflexivity.
  - apply map_eq. intros key. rewrite Hv1, Hv2, (last_value_perm k key l1 l2 Hnd Hp).
    reflexivity.
Qed.

Lemma X_Set_order_irrelevant_witness :
  Metrics_Set NewMetrics [dev_te25; dev_bedroom] =
  Metrics_Set NewMetrics [dev_bedroom; dev_te25].
Proof.
  apply X_Set_order_irrelevant.
  - intros []; reflexivity.
  - vm_compute. repeat constructor; intros H;
      repeat (apply elem_of_cons in H as [H|H]; [discriminate|]); by apply elem_of_nil in H.
  - apply Permutation_swap.
Defined.

(** X7: however many cycles run, [Set] never panics and the registered
    series keep the name, help text and label names [NewMetrics] gave them. *)
Theorem X_run_keeps_descriptors cycles :
  ∃ m, run NewMetrics cycles = Some m ∧
    map (λ gv, (gv_fqname gv, gv_help gv, gv_labels gv)) (registered_vecs m) =
    map (λ gv, (gv_fqname gv, gv_help gv, gv_labels gv)) (registered_vecs NewMetrics).
Proof.
  destruct (run_total NewMetrics cycles NewMetrics_wf) as [m Hm].
  exists m. split; [assumption|].
  assert (Hd : ∀ m0 m1 cs k, run m0 cs = Some m1 →
            gv_fqname (gauge_of k m1) = gv_fqname (gauge_of k m0) ∧
            gv_help (gauge_of k m1) = gv_help (gauge_of k m0) ∧
            gv_labels (gauge_of k m1) = gv_labels (gauge_of k m0)).
  { intros m0 m1 cs k. revert m0. induction cs as [|ds cs IH]; intros m0 H; simpl in H.
    - injection H as <-. auto.
    - unfold Metrics_Set in H. destruct (set_devices m0 ds) as [m2|] eqn:Hs; [|discriminate].
      simpl in H. destruct (IH m2 H) as (-> & -> & ->). apply (set_devices_desc m0 ds m2 k Hs). }
  destruct (Hd _ _ _ SensorTypeTemperature Hm) as (Ht1 & Ht2 & Ht3).
  destruct (Hd _ _ _ SensorTypeHumidity Hm) as (Hh1 & Hh2 & Hh3).
  destruct (Hd _ _ _ SensorTypeIllumination Hm) as (Hi1 & Hi2 & Hi3).
  destruct (Hd _ _ _ SensorTypeMovement Hm) as (Hm1 & Hm2 & Hm3).
  simpl in *. rewrite Ht1, Ht2, Ht3, Hh1, Hh2, Hh3, Hi1, Hi2, Hi3, Hm1, Hm2, Hm3.
  reflexivity.
Qed.

(** ** Further properties of the refresh goroutine *)

Lemma update_spec m r :
  labels_wf m →
  ∃ m' err, update m r = Some (m', err) ∧ labels_wf m' ∧
    run m (omap id [r]) = Some m' ∧ (err = None ↔ is_Some r).
Proof.
  intros Hwf. destruct r as [ds|]; simpl.
  - destruct (set_devices_spec m ds Hwf) as (m' & Hs & Hwf' & _).
    unfold Metrics_Set. rewrite Hs. simpl. exists m', None.
    split; [reflexivity|]. split; [assumption|]. split; [|split; eauto].
    reflexivity.
  - eexists _, _. split; [reflexivity|]. split; [assumption|]. split; [reflexivity|].
    split; [discriminate|intros [? ?]; discriminate].
Qed.

Lemma loop_no_panic fetch n m sels :
  labels_wf m → (loop fetch n m sels).2 ≠ Panicked.
Proof.
  revert n m. induction sels as [|[] sels IH]; intros n m Hwf; simpl; try discriminate.
  destruct (update_spec m (fetch n) Hwf) as (m' & err & -> & Hwf' & _).
  destruct err; simpl; [discriminate|].
  specialize (IH (S n) m' Hwf'). destruct (loop fetch (S n) m' sels) as [[? ?] ?]. exact IH.
Qed.

(** X8: started from a well-formed metric state, the refresh goroutine
    panics exactly when the interval is not positive ([time.NewTicker]
    rejects it), whatever the API returns and whatever the schedule. *)
Theorem X_goroutine_panics_iff interval fetch m sels :
  labels_wf m → (goroutine interval fetch m sels).2 = Panicked ↔ (interval ≤ 0)%Z.
Proof.
  intros Hwf. unfold goroutine.
  destruct (update_spec m (fetch 0) Hwf) as (m1 & err & -> & Hwf1 & _).
  case_decide as Hi; [split; [intros _; exact Hi|reflexivity]|].
  pose proof (loop_no_panic fetch 1 m1 sels Hwf1) as H.
  destruct (loop fetch 1 m1 sels) as [[? ?] ?]. simpl in *. split; [contradiction|lia].
Qed.

Lemma X_goroutine_panics_iff_witness :
  ((goroutine 30000000000%Z fetch_fail1 NewMetrics [SelTick; SelTick]).2 = Panicked ↔
     (30000000000 ≤ 0)%Z) ∧
  ((goroutine 0%Z fetch_fail1 NewMetrics [SelTick; SelTick]).2 = Panicked ↔ (0 ≤ 0)%Z).
Proof. split; apply X_goroutine_panics_iff; intros []; reflexivity. Defined.

Lemma updates_app l1 l2 : updates (l1 ++ l2) = updates l1 + updates l2.
Proof. unfold updates. rewrite filter_app, length_app. reflexivity. Qed.

Lemma updates_cons x l : updates (x :: l) = (if is_update x then 1 else 0) + updates l.
Proof. unfold updates. rewrite filter_cons. destruct (is_update x); reflexivity. Qed.

Lemma loop_metrics fetch n m sels evs m' st :
  labels_wf m → loop fetch n m sels = (evs, m', st) →
  run m (fetched fetch n (updates evs)) = Some m'.
Proof.
  revert n m evs m' st.
  induction sels as [|[] sels IH]; intros n m evs m' st Hwf H; simpl in H.
  - injection H as <- <- _. reflexivity.
  - injection H as <- <- _. reflexivity.
  - unfold fetched. destruct (fetch n) as [ds|] eqn:Hf; simpl in H.
    + destruct (set_devices_spec m ds Hwf) as (m1 & Hs & Hwf1 & _).
      unfold Metrics_Set in H. rewrite Hs in H. simpl in H.
      destruct (loop fetch (S n) m1 sels) as [[evs1 m2] st1] eqn:Hl.
      injection H as <- <- _.
      simpl. rewrite Hf. simpl. unfold Metrics_Set. rewrite Hs. simpl.
      apply (IH _ _ _ _ _ Hwf1 Hl).
    + injection H as <- <- _. simpl. rewrite Hf. reflexivity.
Qed.

(** X10: failed cycles leave the metrics alone and successful ones apply
    [Set] in order: the metric state the goroutine ends with (or is waiting
    with) is that of [Set] applied, cycle by cycle, to the device lists of
    the cycles it ran whose fetch succeeded. *)
Theorem X_goroutine_metrics interval fetch m sels evs m' st :
  labels_wf m → goroutine interval fetch m sels = (evs, m', st) →
  run m (fetched fetch 0 (updates evs)) = Some m'.
Proof.
  intros Hwf H. unfold goroutine in H. unfold fetched.
  destruct (fetch 0) as [ds|] eqn:Hf; simpl in H.
  - destruct (set_devices_spec m ds Hwf) as (m1 & Hs & Hwf1 & _).
    unfold Metrics_Set in H. rewrite Hs in H. simpl in H.
    case_decide.
    + injection H as <- <- _. simpl. rewrite Hf. simpl. unfold Metrics_Set. rewrite Hs.
      reflexivity.
    + destruct (loop fetch 1 m1 sels) as [[evs1 m2] st1] eqn:Hl.
      injection H as <- <- _.
      match goal with |- context [updates ?l] =>
        replace (updates l) with (S (updates evs1))
          by (rewrite !updates_cons, updates_app; destruct st1; cbn [is_update deferred_stop];
              change (updates []) with 0; change (updates [ETickerStop]) with 0; lia)
      end.
      simpl. rewrite Hf. simpl. unfold Metrics_Set. rewrite Hs. simpl.
      apply (loop_metrics fetch 1 m1 sels evs1 m2 st1 Hwf1 Hl).
  - case_decide.
    + injection H as <- <- _. simpl. rewrite Hf. reflexivity.
    + destruct (loop fetch 1 m sels) as [[evs1 m2] st1] eqn:Hl.
      injection H as <- <- _.
      match goal with |- context [updates ?l] =>
        replace (updates l) with (S (updates evs1))
          by (rewrite !updates_cons, updates_app; destruct st1; cbn [is_update deferred_stop];
              change (updates []) with 0; change (updates [ETickerStop]) with 0; lia)
      end.
      simpl. rewrite Hf. simpl.
      apply (loop_metrics fetch 1 m sels evs1 m2 st1 Hwf Hl).
Qed.

Lemma X_goroutine_metrics_witness :
  run NewMetrics (fetched fetch_te25_fail1 0
    (updates (goroutine 30000000000%Z fetch_te25_fail1 NewMetrics [SelTick; SelTick]).1.1)) =
  Some (goroutine 30000000000%Z fetch_te25_fail1 NewMetrics [SelTick; SelTick]).1.2.
Proof.
  apply (X_goroutine_metrics 30000000000%Z fetch_te25_fail1 NewMetrics [SelTick; SelTick] _ _
           (goroutine 30000000000%Z fetch_te25_fail1 NewMetrics [SelTick; SelTick]).2).
  - intros []; reflexivity.
  - reflexivity.
Defined.
